(* ===== verification/_CoqProject ===== *)
-Q . S2P
Prelude.v
Dom.v
Language.v
Config.v
Form.v
Anchor.v
Navbar.v
FadeIn.v
Page.v
