(* ===== verification/Prelude.v ===== *)
(** * A verification development of the abramov.co.il page script

    The repository is a bilingual (English/Hebrew) marketing site. Its
    behaviour is one script, [src/src/js/main.js], whose [DOMContentLoaded]
    listener wires five independent behaviours to the page, plus a Vite
    configuration, [src/vite.config.js], that declares the two HTML entry
    points. The behaviours share only the document; each runs as a
    listener, one event at a time, on the browser's single thread.

    ** Files, in dependency order

    - [Prelude]: this file. The JavaScript string operations the script
      uses ([startsWith], [===], truthiness, [substring]) with their
      lemmas, the exceptions ([JsError]), the result of a DOM handler
      ([Handled]: default prevented or not, and an exception or a
      requested effect), the hint databases [js] and [js_rw] with the
      tactics [js_simpl] and [case_str_eq], and the interface [Reactive]
      that every event-driven component implements (a state, an event
      type, a handler), with [run] over an event sequence and the
      invariant principle [run_invariant] the component invariants use.
    - [Dom]: the browser APIs the script calls (class lists, inline
      styles, [getElementById], [querySelector], [querySelectorAll]) over a
      document that is the list of its elements; node references are
      positions, so the nodes captured at [DOMContentLoaded] stay the same
      nodes. Not code of the repository: no map entry.
    - [Language], Module [Router]: [getCurrentLanguage] (lines 5-8),
      [switchLanguage] (10-27) and the [.language-switcher] click listener
      [languageSwitcherClick] (34-47); [navigate] is the browser's side of
      an assignment to [window.location.href].
    - [Config], Module [ViteConfig]: [vite.config.js] as data, and the
      server's mapping of a directory path to its [index.html].
    - [Form], Module [ContactForm]: the [async] submit listener (77-118),
      split at its [await]: [submit] runs up to [fetch], [resume] is the
      continuation once the fetch settles. Fetches in flight are a
      [gmap nat Request], so submissions may overlap and settle in any
      order; [serial] is the inductive set of states reached when each
      submission settles before the next one.
    - [Anchor], Module [AnchorScroll]: the selection of [a[href^="#"]]
      links without [.language-switcher] ([scrollLinks], 51-57) and their
      click listener [navLinkClick] (58-72).
    - [Navbar], Module [NavbarStyler]: the [scroll] listener [onScroll]
      (144-158) over the navbar's class list, with offsets in [Q].
    - [FadeIn], Module [FadeIn]: the observer options, the setup of the
      animated elements ([setup], 135-142) and the observer callback
      ([onIntersect], 126-133); the browser's "update intersection
      observations" steps of the W3C specification ([updateObservations])
      decide which entries reach the callback at each [Frame].
    - [Page], Module [Page]: [domContentLoaded] builds every component's
      state from the document, including the nodes that receive the two
      click listeners, and [dispatch] delivers each event: a click on a
      node runs the listeners registered on it in registration order, then
      the browser's default action of a link when none prevented it. An
      assignment to [location.href] is a fragment navigation when the URL
      has a fragment and the current path, and otherwise loads a new
      document, after which no listener of the page runs.

    ** What the theorems show

    - Router (C1-C5): the Hebrew/English classification of paths; the
      switch is a no-op to the current language and otherwise goes to
      ["/he/"] or ["/"] followed by the hash; a switch to Hebrew and back
      goes through the browser and keeps the hash; the switcher link always
      navigates to its [href] followed by the hash, and throws on a link
      without [href].
    - Contact form (C6-C12): what a submission sends and hides; the
      success and failure branches of the continuation on every outcome
      (2xx, other status, network failure); one submission leaves exactly
      one message visible; in serial use the two messages are never both
      visible, while on any page two overlapping fetches that settle with a
      success and then a failure show both; without a success element a
      2xx answer resets nothing.
    - Anchor scroller (C13-C17): the scroll target is the first element
      with the id, 80 pixels higher; missing targets and bare ['#'] links
      do nothing beyond the code's [preventDefault]; exactly the [#] links
      that are not switchers get the listener, whose click never throws.
    - Navbar (C18-C20): [scrolled] is present exactly above 100 pixels,
      other classes are kept, handling is idempotent and depends only on
      the last offset.
    - Fade-in (C21-C24): the setup hides exactly the animated elements;
      reveal is one-way; opacity is always ['0'] or ['1'] on observed
      elements and other elements are untouched; an element that comes
      into the root is revealed, whatever share of it is visible.
    - Configuration (C25): every URL the router navigates to is served by
      a declared entry point.
    - Page (C26): on a page whose switchers all have an [href], no
      listener ever throws, whatever the events.

    ** Choices of the model

    No fuel is needed: every operation is structural (a fold over the
    events, the entries, the elements). Offsets of the navbar are
    rationals, because [pageYOffset] is fractional on zoomed screens;
    [offsetTop] is an integer, as in the CSSOM. Each component keeps the
    part of the page it touches (message styles, navbar classes, animated
    elements' styles): the five behaviours touch disjoint properties of
    disjoint elements, so one copy per component is the same page.

    ** Not modelled

    The HTML markup and CSS (not under [src/]); the contents of the
    [FormData] beyond field names and values; the smooth animation of a
    scroll and the CSS transitions (only their targets are modelled); the
    horizontal axis of intersection observation; the dev server's
    [open] and the bundler's output (configuration data only).

    ** Further work

    One shared document for all components, so that the disjointness of
    the properties they touch becomes a theorem instead of a modelling
    choice; relative [href]s other than ['#'] ones in [Page.resolve]. *)

(** ** Prelude: the JavaScript vocabulary shared by the components

    The page script [src/src/js/main.js] manipulates strings (URL paths,
    hash fragments, [href] attributes), compares them with [===], tests
    them for truthiness and cuts them with [substring]. This file gives
    those operations one Rocq definition each, the lemmas about them that
    the components share, the hint database [js] and the tactics built on
    it, and the interface [Reactive] that every event-driven component of
    the page implements: a state, an event type and a handler, run over a
    sequence of events by [run]. *)

From Stdlib Require Import String ZArith.
From stdpp Require Import base strings list.

Declare Scope js_scope.
Delimit Scope js_scope with js.
Open Scope js_scope.

(** ** JavaScript string operations *)

(** [s.startsWith(p)] *)
Definition startsWith (s p : string) : bool := String.prefix p s.

(** [a === b] on two strings *)
Definition str_eq (a b : string) : bool := String.eqb a b.

Notation "a === b" := (str_eq a b) (at level 70, no associativity) : js_scope.
Notation "a !== b" := (negb (str_eq a b)) (at level 70, no associativity) : js_scope.

(** Truthiness of a string in a condition: only [''] is falsy. *)
Definition truthy (s : string) : bool := negb (String.eqb s "").

(** [s.substring(n)]: the suffix from index [n] on, [''] past the end. *)
Definition substring_from (n : nat) (s : string) : string :=
  String.substring n (String.length s - n) s.

(** The uncaught exceptions the script can raise. *)
Inductive JsError :=
  | TypeError (msg : string)
  | Error (msg : string).

(** What a DOM event handler leaves behind: whether it called
    [e.preventDefault()], and either the exception it threw or its result
    (the side effect it requested). *)
Record Handled (A : Type) := mkHandled {
  defaultPrevented : bool;
  outcome : JsError + A
}.
Arguments mkHandled {A}.
Arguments defaultPrevented {A}.
Arguments outcome {A}.

(** ** Lemmas on the string operations *)

Lemma str_eq_spec (a b : string) : reflect (a = b) (a === b).
Proof. apply String.eqb_spec. Qed.

Lemma str_eq_refl (a : string) : (a === a) = true.
Proof. apply String.eqb_refl. Qed.

Lemma str_eq_true (a b : string) : (a === b) = true <-> a = b.
Proof. apply String.eqb_eq. Qed.

Lemma str_eq_false (a b : string) : (a === b) = false <-> a <> b.
Proof. apply String.eqb_neq. Qed.

Lemma prefix_append (p t : string) : String.prefix p (p ++ t)%string = true.
Proof.
  induction p as [|c p IH]; [by destruct t|]. simpl.
  destruct (Ascii.ascii_dec c c); [done|congruence].
Qed.

Lemma startsWith_append (p t : string) : startsWith (p ++ t)%string p = true.
Proof. apply prefix_append. Qed.

Lemma startsWith_spec (s p : string) :
  startsWith s p = true <-> exists t, s = (p ++ t)%string.
Proof.
  split.
  - revert s. induction p as [|c p IH]; intros s H; [by exists s|].
    destruct s as [|c' s]; [discriminate|]. simpl in H.
    destruct (Ascii.ascii_dec c c'); [subst|discriminate].
    destruct (IH s H) as [t ->]. by exists t.
  - intros [t ->]. apply startsWith_append.
Qed.

Lemma truthy_false (s : string) : truthy s = false <-> s = ""%string.
Proof.
  unfold truthy. rewrite negb_false_iff. apply String.eqb_eq.
Qed.

Lemma truthy_cons (c : Ascii.ascii) (s : string) : truthy (String c s) = true.
Proof. reflexivity. Qed.

Lemma substring_all (s : string) : String.substring 0 (String.length s) s = s.
Proof. induction s as [|c s IH]; [done|]. simpl. by rewrite IH. Qed.

Lemma substring_from_1_cons (c : Ascii.ascii) (s : string) :
  substring_from 1 (String c s) = s.
Proof. unfold substring_from. simpl. rewrite Nat.sub_0_r. apply substring_all. Qed.

Lemma substring_from_1_app (c : Ascii.ascii) (s : string) :
  substring_from 1 (String c EmptyString ++ s) = s.
Proof. exact (substring_from_1_cons c s). Qed.

Lemma append_empty_r (s : string) : (s ++ "")%string = s.
Proof. induction s as [|c s IH]; [done|]. exact (f_equal (String c) IH). Qed.

Lemma append_assoc (a b c : string) : (a ++ (b ++ c))%string = ((a ++ b) ++ c)%string.
Proof. induction a as [|x a IH]; [done|]. exact (f_equal (String x) IH). Qed.

Create HintDb js discriminated.
Create Rewrite HintDb js_rw.
#[export] Hint Rewrite str_eq_refl startsWith_append substring_from_1_cons substring_from_1_app
  append_empty_r : js_rw.
#[export] Hint Resolve str_eq_refl startsWith_append prefix_append truthy_cons : js.

(** Simplify the string operations of a goal with the [js] database. *)
Ltac js_simpl := autorewrite with js_rw in *; simpl in *.

(** Case on a string comparison [a === b] appearing in the goal. *)
Ltac case_str_eq :=
  match goal with
  | |- context [?a === ?b] => destruct (str_eq_spec a b); subst
  end.

(** ** Event-driven components

    Every behaviour of the page is a handler registered with
    [addEventListener]: it reacts to one event at a time, and the browser
    runs handlers one after the other on a single thread. A component is
    therefore a state type, an event type and a handler; [run] feeds it a
    sequence of events in delivery order. *)

Class Reactive (St Ev : Type) := react : St -> Ev -> St.
#[global] Hint Mode Reactive ! - : typeclass_instances.

Definition run {St Ev} `{Reactive St Ev} (s : St) (evs : list Ev) : St :=
  fold_left react evs s.

Lemma run_nil {St Ev} `{Reactive St Ev} (s : St) : run s [] = s.
Proof. done. Qed.

Lemma run_app {St Ev} `{Reactive St Ev} (s : St) (e1 e2 : list Ev) :
  run s (e1 ++ e2) = run (run s e1) e2.
Proof. apply fold_left_app. Qed.

Lemma run_snoc {St Ev} `{Reactive St Ev} (s : St) (es : list Ev) (e : Ev) :
  run s (es ++ [e]) = react (run s es) e.
Proof. by rewrite run_app. Qed.

Section RunInvariant.
Context {St Ev : Type} `{Reactive St Ev}.
Variable P : St -> Prop.
Hypothesis P_react : forall s e, P s -> P (react s e).

(** A property every handler call preserves holds after any sequence. *)
Lemma run_invariant (s : St) (evs : list Ev) : P s -> P (run s evs).
Proof.
  revert s. induction evs as [|e evs IH]; intros s Hs; [done|].
  simpl. apply IH, P_react, Hs.
Qed.
End RunInvariant.
