(* ===== verification/Dom.v ===== *)
(** * The browser DOM, as far as [main.js] uses it

    Elements carry an [id], a class list, an optional [href] attribute,
    an inline style and their [offsetTop]; a document is the list of its
    elements in document order, and a node reference is a position in that
    list, so that the references the script captures once at
    [DOMContentLoaded] keep denoting the same node when its style changes.
    These are the browser APIs the script calls ([classList.add],
    [classList.remove], [classList.contains], [getElementById],
    [querySelector], [querySelectorAll], [style.x = v]); they are not code
    of the repository and appear in no map entry. *)

From Stdlib Require Import String ZArith.
From stdpp Require Import base strings list gmap.
From S2P Require Import Prelude.

Open Scope string_scope.

Module Dom.

(** [element.style]: CSS property name to value. *)
Abbreviation Style := (gmap string string) (only parsing).

(** ** [DOMTokenList] *)

Definition contains (c : string) (cl : list string) : bool :=
  existsb (fun x => x === c) cl.

Definition add (c : string) (cl : list string) : list string :=
  if contains c cl then cl else cl ++ [c].

Definition remove (c : string) (cl : list string) : list string :=
  List.filter (fun x => negb (x === c)) cl.

Record Element := mkElement {
  tagName : string;
  id : string;
  classList : list string;
  href : option string;
  style : Style;
  offsetTop : Z
}.

Abbreviation Document := (list Element).
Abbreviation NodeRef := nat.

Definition set_style (prop v : string) (e : Element) : Element :=
  mkElement (tagName e) (id e) (classList e) (href e)
    (<[prop := v]> (style e)) (offsetTop e).

(** [el.style[prop] = v] on the node [r]. *)
Definition assign_style (r : NodeRef) (prop v : string) (d : Document) : Document :=
  alter (set_style prop v) r d.

(** The inline value of [prop] on node [r]. *)
Definition style_of (d : Document) (r : NodeRef) (prop : string) : option string :=
  e ← d !! r; style e !! prop.

(** Positions of the elements satisfying [p], in document order. *)
Fixpoint select_from (p : Element -> bool) (i : nat) (d : Document) : list NodeRef :=
  match d with
  | [] => []
  | e :: d' => (if p e then [i] else []) ++ select_from p (S i) d'
  end.

Definition querySelectorAll (p : Element -> bool) (d : Document) : list NodeRef :=
  select_from p 0 d.

Definition querySelector (p : Element -> bool) (d : Document) : option NodeRef :=
  head (querySelectorAll p d).

(** [document.getElementById(i)]: the first element with that id; no
    element has the empty id. *)
Definition getElementById (d : Document) (i : string) : option Element :=
  if i === "" then None else find (fun e => id e === i) d.

(** The selector [.c] *)
Definition has_class (c : string) (e : Element) : bool := contains c (classList e).

(** ** Lemmas *)

Lemma contains_spec (c : string) (cl : list string) :
  contains c cl = true <-> c ∈ cl.
Proof.
  unfold contains. rewrite existsb_exists, list_elem_of_In.
  split; [intros (x & Hin & Hx); apply str_eq_true in Hx; by subst|].
  intros Hin. exists c. split; [done | apply str_eq_refl].
Qed.

Lemma add_elem (c x : string) (cl : list string) : x ∈ add c cl <-> x = c \/ x ∈ cl.
Proof.
  unfold add. destruct (contains c cl) eqn:E.
  - apply contains_spec in E. split; [auto|]. intros [->|]; done.
  - rewrite elem_of_app, list_elem_of_singleton. tauto.
Qed.

Lemma remove_elem (c x : string) (cl : list string) : x ∈ remove c cl <-> x ∈ cl /\ x <> c.
Proof.
  unfold remove. rewrite !list_elem_of_In, filter_In, negb_true_iff, str_eq_false. tauto.
Qed.

Lemma add_idem (c : string) (cl : list string) : add c (add c cl) = add c cl.
Proof.
  unfold add at 1. replace (contains c (add c cl)) with true; [done|].
  symmetry. apply contains_spec, add_elem. by left.
Qed.

Lemma remove_idem (c : string) (cl : list string) : remove c (remove c cl) = remove c cl.
Proof.
  unfold remove. induction cl as [|x cl IH]; [done|]. simpl.
  destruct (x === c) eqn:E; simpl; [done|]. rewrite E. simpl. by rewrite IH.
Qed.

Lemma select_from_spec (p : Element -> bool) (d : Document) (i r : nat) :
  r ∈ select_from p i d <-> exists e, d !! (r - i) = Some e /\ i <= r /\ p e = true.
Proof.
  revert i. induction d as [|e d IH]; intros i; simpl.
  - split; [set_solver | intros (? & ? & _); done].
  - rewrite elem_of_app, IH. split.
    + intros [Hr | (e' & He' & Hle & Hp)].
      * destruct (p e) eqn:E; [|set_solver]. apply list_elem_of_singleton in Hr. subst.
        exists e. rewrite Nat.sub_diag. auto.
      * exists e'. split; [|split; [lia|done]].
        replace (r - i) with (S (r - S i)) by lia. done.
    + intros (e' & He' & Hle & Hp).
      destruct (decide (r = i)) as [->|Hne].
      * left. rewrite Nat.sub_diag in He'. simpl in He'. injection He' as <-. rewrite Hp. set_solver.
      * right. exists e'. replace (r - i) with (S (r - S i)) in He' by lia.
        split; [done | split; [lia | done]].
Qed.

Lemma querySelectorAll_spec (p : Element -> bool) (d : Document) (r : NodeRef) :
  r ∈ querySelectorAll p d <-> exists e, d !! r = Some e /\ p e = true.
Proof.
  unfold querySelectorAll. rewrite select_from_spec, Nat.sub_0_r.
  split; intros (e & ? & ?); exists e; naive_solver lia.
Qed.

Lemma style_of_assign_eq (d : Document) (r : NodeRef) (prop v : string) :
  r < length d -> style_of (assign_style r prop v d) r prop = Some v.
Proof.
  intros Hr. unfold style_of, assign_style.
  rewrite list_lookup_alter_eq.
  destruct (d !! r) as [e|] eqn:E; [| apply lookup_ge_None in E; lia].
  simpl. apply lookup_insert_eq.
Qed.

Lemma style_of_assign_ne (d : Document) (r r' : NodeRef) (prop prop' v : string) :
  r <> r' \/ prop <> prop' ->
  style_of (assign_style r prop v d) r' prop' = style_of d r' prop'.
Proof.
  intros H. unfold style_of, assign_style.
  destruct (decide (r = r')) as [<-|Hne].
  - rewrite list_lookup_alter_eq. destruct (d !! r) as [e|]; [|done]. simpl.
    apply lookup_insert_ne. naive_solver.
  - by rewrite list_lookup_alter_ne.
Qed.

Lemma length_assign_style (d : Document) (r : NodeRef) (prop v : string) :
  length (assign_style r prop v d) = length d.
Proof. apply length_alter. Qed.

Lemma find_first {A} (p : A -> bool) (l : list A) (k : nat) (x : A) :
  l !! k = Some x -> p x = true ->
  (forall k' y, k' < k -> l !! k' = Some y -> p y = false) ->
  find p l = Some x.
Proof.
  revert k. induction l as [|y l IH]; intros k Hk Hx Hbefore; [done|].
  destruct k as [|k]; simpl in *.
  - injection Hk as ->. by rewrite Hx.
  - rewrite (Hbefore 0 y) by (done || lia).
    apply (IH k Hk Hx). intros k' z Hk' Hz. apply (Hbefore (S k')); [lia | done].
Qed.

Lemma find_none {A} (p : A -> bool) (l : list A) :
  (forall y, y ∈ l -> p y = false) -> find p l = None.
Proof.
  induction l as [|y l IH]; intros H; [done|]. simpl.
  rewrite H by set_solver. apply IH. set_solver.
Qed.

(** [getElementById] finds the first element, in document order, with the
    id asked for. *)
Lemma getElementById_first (d : Document) (i : string) (k : nat) (e : Element) :
  i <> "" -> d !! k = Some e -> id e = i ->
  (forall k' e', k' < k -> d !! k' = Some e' -> id e' <> i) ->
  getElementById d i = Some e.
Proof.
  intros Hi Hk He Hbefore. unfold getElementById.
  rewrite (proj2 (str_eq_false _ _) Hi). apply (find_first _ _ k); [done | subst; apply str_eq_refl|].
  intros k' e' Hlt He'. apply str_eq_false. eauto.
Qed.

Lemma getElementById_missing (d : Document) (i : string) :
  (forall e, e ∈ d -> id e <> i) -> getElementById d i = None.
Proof.
  intros H. unfold getElementById. destruct (i === ""); [done|].
  apply find_none. intros e He. apply str_eq_false. auto.
Qed.

End Dom.
