(* ===== verification/Language.v ===== *)
(** * Language Router ([src/src/js/main.js], lines 4-48)

    [getCurrentLanguage] classifies the current path, [switchLanguage]
    computes the URL of the other locale, and the click handler of every
    [.language-switcher] link navigates to the link's [href] with the
    current hash appended. Locations are the two fields of
    [window.location] the code reads; a navigation is the string assigned
    to [window.location.href]. [navigate] is the browser's side: the
    location a path-absolute URL leads to, used for the round-trip
    theorems. *)

From Stdlib Require Import String Ascii.
From stdpp Require Import base strings list.
From S2P Require Import Prelude.

Open Scope string_scope.

Module Router.

(** The parts of [window.location] the code reads. *)
Record Location := mkLocation {
  pathname : string;
  hash : string
}.

(** [getCurrentLanguage()] *)
Definition getCurrentLanguage (loc : Location) : string :=
  let path := pathname loc in
  if startsWith path "/he/" || (path === "/he") then "he" else "en".

(** [switchLanguage(targetLang)]: [None] is the early [return], [Some u]
    the assignment [window.location.href = u]. *)
Definition switchLanguage (loc : Location) (targetLang : string) : option string :=
  let currentHash := hash loc in
  let currentLang := getCurrentLanguage loc in
  if currentLang === targetLang then None
  else
    let newUrl :=
      if targetLang === "he" then "/he/" ++ currentHash
      else "/" ++ currentHash in
    Some newUrl.

(** The click listener of a [.language-switcher] link, given the value of
    [this.getAttribute('href')] ([None] for a missing attribute, on which
    [href.startsWith] throws). [targetLang] is computed and never used, as
    in the code. *)
Definition languageSwitcherClick (loc : Location) (href : option string)
    : Handled string :=
  match href with
  | None =>
      mkHandled true
        (inl (TypeError "Cannot read properties of null (reading 'startsWith')"))
  | Some h =>
      let targetLang := if startsWith h "/he/" || (h === "/he") then "he" else "en" in
      let currentHash := hash loc in
      let newUrl := if truthy currentHash then h ++ currentHash else h in
      mkHandled true (inr newUrl)
  end.

(** ** The browser's side of a navigation *)

(** Split a URL at its first ['#']: the part before, and the fragment with
    its ['#']. *)
Fixpoint split_hash (s : string) : string * string :=
  match s with
  | EmptyString => ("", "")
  | String c r =>
      if Ascii.eqb c "#"%char then ("", s)
      else let '(p, f) := split_hash r in (String c p, f)
  end.

(** The location reached by assigning a path-absolute URL to
    [window.location.href]; an empty fragment reads back as [''] from
    [location.hash]. *)
Definition navigate (url : string) : Location :=
  let '(p, f) := split_hash url in
  mkLocation p (if f === "#" then "" else f).

(** A string without ['#'], which [split_hash] keeps whole. *)
Fixpoint no_hash (s : string) : bool :=
  match s with
  | EmptyString => true
  | String c r => negb (Ascii.eqb c "#"%char) && no_hash r
  end.

(** The values [location.hash] takes: [''] or ['#'] with a nonempty fragment. *)
Definition wf_hash (h : string) : Prop :=
  h = "" \/ exists f, h = "#" ++ f /\ f <> "".

(** ** The classification and the switch *)

Lemma he_prefix_rule (p : string) :
  (startsWith p "/he/" || (p === "/he")) = true <->
  (exists t, p = "/he/" ++ t) \/ p = "/he".
Proof.
  rewrite orb_true_iff, startsWith_spec, str_eq_true. done.
Qed.

(** C1. A path is Hebrew exactly when it starts with ["/he/"] or is
    ["/he"]; every other path is English. *)
Theorem getCurrentLanguage_spec (loc : Location) :
  (getCurrentLanguage loc = "he" <->
     (exists t, pathname loc = "/he/" ++ t) \/ pathname loc = "/he") /\
  (getCurrentLanguage loc = "en" <->
     ~ ((exists t, pathname loc = "/he/" ++ t) \/ pathname loc = "/he")).
Proof.
  rewrite <- he_prefix_rule. unfold getCurrentLanguage.
  destruct (startsWith (pathname loc) "/he/" || (pathname loc === "/he"));
    split; split; congruence.
Qed.

(** C2. Switching to the language already shown does nothing: no URL is
    assigned. *)
Theorem switchLanguage_same (loc : Location) (lang : string) :
  getCurrentLanguage loc = lang -> switchLanguage loc lang = None.
Proof. intros <-. unfold switchLanguage. by rewrite str_eq_refl. Qed.

Lemma switchLanguage_same_witness :
  getCurrentLanguage (mkLocation "/he/" "#pricing") = "he" /\
  switchLanguage (mkLocation "/he/" "#pricing") "he" = None.
Proof.
  split; [reflexivity|]. apply switchLanguage_same. reflexivity.
Defined.

(** C3. Switching to another language assigns ["/he/"] followed by the
    current hash for Hebrew, and ["/"] followed by the hash for any other
    target. *)
Theorem switchLanguage_other (loc : Location) (lang : string) :
  getCurrentLanguage loc <> lang ->
  switchLanguage loc lang =
    Some (if lang === "he" then "/he/" ++ hash loc else "/" ++ hash loc).
Proof.
  intros Hne. unfold switchLanguage.
  rewrite (proj2 (str_eq_false _ _) Hne). done.
Qed.

Lemma switchLanguage_other_witness :
  getCurrentLanguage (mkLocation "/" "#pricing") <> "he" /\
  switchLanguage (mkLocation "/" "#pricing") "he" = Some "/he/#pricing".
Proof.
  split; [discriminate|]. apply (switchLanguage_other (mkLocation "/" "#pricing")).
  discriminate.
Defined.

(** ** Round trip through the browser *)

Lemma split_hash_app (p h : string) :
  no_hash p = true -> (h = "" \/ exists f, h = "#" ++ f) ->
  split_hash (p ++ h) = (p, h).
Proof.
  intros Hp Hh. induction p as [|c p IH]; simpl.
  - destruct Hh as [-> | [f ->]]; reflexivity.
  - simpl in Hp. apply andb_prop in Hp as [Hc Hp].
    apply negb_true_iff in Hc. rewrite Hc, (IH Hp). reflexivity.
Qed.

Lemma navigate_app (p h : string) :
  no_hash p = true -> wf_hash h -> navigate (p ++ h) = mkLocation p h.
Proof.
  intros Hp Hh. unfold navigate.
  rewrite split_hash_app; [| done | destruct Hh as [-> | [f [-> _]]]; eauto].
  f_equal. case_str_eq; [| done].
  destruct Hh as [Hh | [f [Hf Hne]]]; [discriminate|].
  destruct f; [done | discriminate].
Qed.

(** C4. Switching an English page to Hebrew and back goes through
    ["/he/" ++ h] and returns to ["/" ++ h]: the hash [h] survives both
    navigations, and each page is classified as the language switched
    to. *)
Theorem switchLanguage_roundtrip (p h : string) :
  wf_hash h -> getCurrentLanguage (mkLocation p h) = "en" ->
  option_map navigate (switchLanguage (mkLocation p h) "he") = Some (mkLocation "/he/" h) /\
  getCurrentLanguage (mkLocation "/he/" h) = "he" /\
  option_map navigate (switchLanguage (mkLocation "/he/" h) "en") = Some (mkLocation "/" h) /\
  getCurrentLanguage (mkLocation "/" h) = "en".
Proof.
  intros Hh Hen. unfold switchLanguage. rewrite Hen. simpl.
  rewrite !navigate_app by done. done.
Qed.

Lemma switchLanguage_roundtrip_witness :
  let h := "#pricing" in
  wf_hash h /\ getCurrentLanguage (mkLocation "/" h) = "en" /\
  option_map navigate (switchLanguage (mkLocation "/" h) "he") = Some (mkLocation "/he/" h).
Proof.
  assert (Hw : wf_hash "#pricing") by (right; by exists "pricing").
  split; [exact Hw|]. split; [reflexivity|].
  exact (proj1 (switchLanguage_roundtrip "/" "#pricing" Hw eq_refl)).
Defined.

(** ** The language-switcher click handler *)

(** C5. A click on a language switcher always prevents the default
    navigation and assigns the link's [href] followed by the current hash
    (nothing is appended when the hash is empty), whatever the current
    language; a link without [href] throws a [TypeError]. *)
Theorem languageSwitcherClick_spec (loc : Location) (href : option string) :
  languageSwitcherClick loc href =
    match href with
    | Some h => mkHandled true (inr (h ++ hash loc))
    | None => mkHandled true
        (inl (TypeError "Cannot read properties of null (reading 'startsWith')"))
    end.
Proof.
  destruct href as [h|]; [|done]. simpl.
  destruct (truthy (hash loc)) eqn:E; [done|].
  apply truthy_false in E. rewrite E. by js_simpl.
Qed.

End Router.
