(* ===== verification/Config.v ===== *)
(** * Build configuration ([src/vite.config.js])

    The Vite configuration as data: the project root, the public
    directory, the build options with the two HTML entry points (English
    and Hebrew), and the dev-server options. Paths that the file builds
    with [resolve(__dirname, ...)] are kept relative to the project
    directory. [pageFor] is the server's side: a path ending in ['/'] is
    served from the [index.html] of that directory under the root. The
    theorem ties the configuration to the Language Router: every URL that
    [switchLanguage] navigates to is served by a declared entry point. *)

From Stdlib Require Import String Ascii.
From stdpp Require Import base strings list.
From S2P Require Import Prelude Language.

Open Scope string_scope.

Module ViteConfig.

Import Router.

Record BuildOptions := mkBuild {
  outDir : string;
  emptyOutDir : bool;
  minify : string;
  input : list (string * string)      (** [rollupOptions.input] *)
}.

Record ServerOptions := mkServer {
  port : nat;
  open_browser : bool                 (** [open] *)
}.

Record UserConfig := mkConfig {
  root : string;
  base : string;
  publicDir : string;
  build : BuildOptions;
  server : ServerOptions
}.

(** [defineConfig({...})] *)
Definition config : UserConfig :=
  mkConfig "src" "/" "public"
    (mkBuild "../dist" true "esbuild"
       [("main", "src/index.html"); ("hebrew", "src/he/index.html")])
    (mkServer 3000 true).

(** The file served for a directory path under the root. *)
Fixpoint ends_with_slash (s : string) : bool :=
  match s with
  | EmptyString => false
  | String c EmptyString => Ascii.eqb c "/"%char
  | String _ r => ends_with_slash r
  end.

Definition pageFor (c : UserConfig) (pathname : string) : option string :=
  if ends_with_slash pathname then Some (root c ++ pathname ++ "index.html") else None.

(** Whether [file] is one of the entry points of the build. *)
Definition is_entry (c : UserConfig) (file : string) : Prop :=
  exists name, (name, file) ∈ input (build c).

(** C25. Every URL the Language Router navigates to, from any page and
    with any hash, lands on a path served by one of the two entry points
    the build declares: ["/he/"] by [src/he/index.html] and ["/"] by
    [src/index.html]. *)
Theorem switchLanguage_lands_on_entry (loc : Location) (lang u : string) :
  wf_hash (hash loc) -> switchLanguage loc lang = Some u ->
  exists file, pageFor config (pathname (navigate u)) = Some file /\ is_entry config file.
Proof.
  intros Hh Hsw. unfold switchLanguage in Hsw.
  destruct (_ === lang); [done|]. injection Hsw as <-.
  destruct (lang === "he");
    [rewrite (navigate_app "/he/") by done; exists "src/he/index.html"; split;
       [reflexivity | exists "hebrew"; apply list_elem_of_In; simpl; auto]
    |rewrite (navigate_app "/") by done; exists "src/index.html"; split;
       [reflexivity | exists "main"; apply list_elem_of_In; simpl; auto]].
Qed.

Lemma switchLanguage_lands_on_entry_witness :
  exists file, pageFor config (pathname (navigate "/he/#contact")) = Some file /\
    is_entry config file.
Proof.
  apply (switchLanguage_lands_on_entry (mkLocation "/" "#contact") "he");
    [right; exists "contact"; split; [reflexivity | discriminate] | reflexivity].
Defined.

End ViteConfig.
