(* ===== verification/Form.v ===== *)
(** * Contact Form Submitter ([src/src/js/main.js], lines 77-118)

    The [submit] listener of [#contact-form] is an [async] function: it
    runs synchronously up to [await fetch(...)], and its remainder runs
    later, when the browser settles that fetch. The model splits it there:
    [submit] is the part before the [await] (hide both messages, snapshot
    the fields, start the request; the unconditional [e.preventDefault()]
    of line 84 is not recorded in the state), and [resume] is
    the continuation, given the fetch's outcome. Requests in flight are kept
    in a [gmap] from a request number to the request, so that several
    submissions can be pending at once and settle in any order, as in the
    browser. The two message elements are the ones [querySelector] found at
    [DOMContentLoaded] ([None] when absent); only their inline style is
    modelled. *)

From Stdlib Require Import String ZArith.
From stdpp Require Import base strings list gmap.
From S2P Require Import Prelude Dom.

Open Scope string_scope.

Module ContactForm.

(** How a [fetch] settles: a response with its HTTP status, or a rejection
    (the browser's [TypeError: Failed to fetch]). *)
Inductive FetchOutcome :=
  | Response (status : Z)
  | NetworkFailure.

(** [response.ok]: the status is in 200-299. *)
Definition ok (status : Z) : bool := ((200 <=? status) && (status <=? 299))%Z.

Record Request := mkRequest {
  url : string;
  method : string;
  body : list (string * string);
  headers : list (string * string)
}.

Record FormState := mkForm {
  action : string;                      (** [this.action] *)
  fields : list (string * string);      (** the controls' names and values *)
  defaults : list (string * string);    (** what [this.reset()] restores *)
  successMessage : option Dom.Style;    (** [.success-message], if present *)
  errorMessage : option Dom.Style;      (** [.error-message], if present *)
  console : list (string * JsError);    (** the [console.error] calls *)
  inflight : gmap nat Request;          (** fetches not settled yet *)
  next_id : nat                         (** the number of the next fetch *)
}.

(** Events reaching the form: a submission, the settling of fetch [i], and
    the user editing the value of control [k]. *)
Inductive FormEvent :=
  | Submit
  | Settle (i : nat) (o : FetchOutcome)
  | Input (k : nat) (v : string).

(** [if (m) m.style.display = v] *)
Definition set_display (v : string) (m : option Dom.Style) : option Dom.Style :=
  (fun st => <["display" := v]> st) <$> m.

Definition with_messages (s : FormState) (sm em : option Dom.Style) : FormState :=
  mkForm (action s) (fields s) (defaults s) sm em (console s) (inflight s) (next_id s).

Definition with_fields (s : FormState) (fs : list (string * string)) : FormState :=
  mkForm (action s) fs (defaults s) (successMessage s) (errorMessage s)
    (console s) (inflight s) (next_id s).

Definition with_inflight (s : FormState) (m : gmap nat Request) (n : nat) : FormState :=
  mkForm (action s) (fields s) (defaults s) (successMessage s) (errorMessage s)
    (console s) m n.

Definition log_error (s : FormState) (msg : string) (err : JsError) : FormState :=
  mkForm (action s) (fields s) (defaults s) (successMessage s) (errorMessage s)
    (console s ++ [(msg, err)]) (inflight s) (next_id s).

(** The request [fetch(this.action, {...})] sends. *)
Definition formRequest (s : FormState) : Request :=
  mkRequest (action s) "POST" (fields s) [("Accept", "application/json")].

(** The listener up to [await]: hide both messages, start the fetch. *)
Definition submit (s : FormState) : FormState :=
  let s1 := with_messages s (set_display "none" (successMessage s))
                            (set_display "none" (errorMessage s)) in
  with_inflight s1 (<[next_id s1 := formRequest s1]> (inflight s1)) (S (next_id s1)).

(** The [catch] block. *)
Definition catch_error (s : FormState) (err : JsError) : FormState :=
  let s1 := log_error s "Error submitting form:" err in
  with_messages s1 (successMessage s1) (set_display "block" (errorMessage s1)).

(** The listener after [await], once fetch [i] settled with [o]. *)
Definition resume (s : FormState) (i : nat) (o : FetchOutcome) : FormState :=
  match inflight s !! i with
  | None => s
  | Some _ =>
      let s1 := with_inflight s (delete i (inflight s)) (next_id s) in
      match o with
      | Response status =>
          if ok status then
            match successMessage s1 with
            | Some st =>
                with_fields
                  (with_messages s1 (Some (<["display" := "block"]> st)) (errorMessage s1))
                  (defaults s1)
            | None => s1
            end
          else catch_error s1 (Error "Form submission failed")
      | NetworkFailure => catch_error s1 (TypeError "Failed to fetch")
      end
  end.

(** The user types [v] into control [k]. *)
Definition input (s : FormState) (k : nat) (v : string) : FormState :=
  with_fields s (alter (fun nv => (nv.1, v)) k (fields s)).

#[export] Instance form_reactive : Reactive FormState FormEvent :=
  fun s e =>
    match e with
    | Submit => submit s
    | Settle i o => resume s i o
    | Input k v => input s k v
    end.

(** Whether a settled fetch takes the success branch of the [try]. *)
Definition succeeded (o : FetchOutcome) : bool :=
  match o with
  | Response status => ok status
  | NetworkFailure => false
  end.

(** The exception the [catch] block receives on the failure branch. *)
Definition failure_error (o : FetchOutcome) : JsError :=
  match o with
  | Response _ => Error "Form submission failed"
  | NetworkFailure => TypeError "Failed to fetch"
  end.

(** A message is visible when its inline [display] is ['block']. *)
Definition shown (m : option Dom.Style) : bool :=
  match m with
  | Some st => bool_decide (st !! "display" = Some "block")
  | None => false
  end.

(** At most one of the two messages is visible. *)
Definition exclusive (s : FormState) : Prop :=
  ~ (shown (successMessage s) = true /\ shown (errorMessage s) = true).

(** The runs in which the user waits for each submission to settle before
    submitting again. *)
Inductive serial : FormState -> Prop :=
  | serial_start s : inflight s = ∅ -> exclusive s -> serial s
  | serial_submit s : serial s -> inflight s = ∅ -> serial (submit s)
  | serial_settle s i o : serial s -> serial (resume s i o)
  | serial_input s k v : serial s -> serial (input s k v).

(** The shape of a serial state: nothing pending and at most one message
    visible, or one fetch pending and no message visible. *)
Definition serial_shape (s : FormState) : Prop :=
  (inflight s = ∅ /\ exclusive s) \/
  (exists i r, inflight s = {[i := r]} /\
     shown (successMessage s) = false /\ shown (errorMessage s) = false).

(** A page with both messages and two filled-in fields, nothing pending. *)
Definition demo_form : FormState :=
  mkForm "/" [("name", "Dana"); ("email", "dana@example.com")]
    [("name", ""); ("email", "")] (Some ∅) (Some ∅) [] ∅ 0.

(** ** Lemmas on messages *)

Lemma shown_none (m : option Dom.Style) : shown (set_display "none" m) = false.
Proof.
  destruct m as [st|]; [|done]. simpl. apply bool_decide_eq_false.
  rewrite lookup_insert_eq. congruence.
Qed.

Lemma shown_block (st : Dom.Style) : shown (Some (<["display" := "block"]> st)) = true.
Proof. simpl. apply bool_decide_eq_true. apply lookup_insert_eq. Qed.

Lemma shown_set_block (m : option Dom.Style) : shown (set_display "block" m) = bool_decide (is_Some m).
Proof. destruct m as [st|]; [apply shown_block | done]. Qed.

#[export] Hint Rewrite shown_none shown_block shown_set_block : js_rw.

Lemma resume_pending (s : FormState) (i : nat) (r : Request) (o : FetchOutcome) :
  inflight s !! i = Some r ->
  resume s i o =
    let s1 := with_inflight s (delete i (inflight s)) (next_id s) in
    if succeeded o then
      match successMessage s with
      | Some st =>
          with_fields (with_messages s1 (Some (<["display" := "block"]> st)) (errorMessage s))
            (defaults s)
      | None => s1
      end
    else catch_error s1 (failure_error o).
Proof. intros Hi. unfold resume. rewrite Hi. destruct o as [st|]; simpl; [destruct (ok st)|]; reflexivity. Qed.

Lemma resume_absent (s : FormState) (i : nat) (o : FetchOutcome) :
  inflight s !! i = None -> resume s i o = s.
Proof. intros Hi. unfold resume. by rewrite Hi. Qed.

Lemma serial_shape_submit (s : FormState) :
  inflight s = ∅ -> serial_shape (submit s).
Proof.
  intros Hemp. right. exists (next_id s), (formRequest (with_messages s
    (set_display "none" (successMessage s)) (set_display "none" (errorMessage s)))).
  unfold submit; cbn. rewrite Hemp, insert_empty. js_simpl. auto.
Qed.

Lemma serial_shape_settle_single (s : FormState) (i : nat) (r : Request) (o : FetchOutcome) :
  inflight s = {[i := r]} -> shown (successMessage s) = false ->
  shown (errorMessage s) = false -> serial_shape (resume s i o).
Proof.
  intros Hin Hs He. left.
  rewrite (resume_pending _ _ r) by (rewrite Hin; apply lookup_singleton_eq).
  cbv zeta. rewrite Hin, delete_singleton_eq.
  destruct (succeeded o), (successMessage s) eqn:E; cbn; rewrite ?E;
    js_simpl;
    unfold exclusive, catch_error, log_error, with_fields, with_messages, with_inflight;
    split; auto; intros [H1 H2]; cbn [successMessage errorMessage] in H1, H2.
  all: rewrite ?E, ?shown_none in H1; cbn in H1, Hs; congruence.
Qed.

Lemma serial_shape_react_settle (s : FormState) (i : nat) (o : FetchOutcome) :
  serial_shape s -> serial_shape (resume s i o).
Proof.
  intros [[Hemp Hex] | (j & r & Hin & Hs & He)].
  - rewrite resume_absent by (rewrite Hemp; apply lookup_empty). left; auto.
  - destruct (decide (i = j)) as [->|Hne]; [by eapply serial_shape_settle_single|].
    rewrite resume_absent by (rewrite Hin; by apply lookup_singleton_ne).
    right. eauto.
Qed.

(** ** The submission *)

(** C6. Submitting hides whichever of the two messages is present, leaves
    the fields as they are, and starts one fetch, numbered [next_id], that
    POSTs the current field values to the form's [action] with the header
    [Accept: application/json]. *)
Theorem submit_spec (s : FormState) :
  successMessage (submit s) = set_display "none" (successMessage s) /\
  errorMessage (submit s) = set_display "none" (errorMessage s) /\
  fields (submit s) = fields s /\
  inflight (submit s) !! next_id s =
    Some (mkRequest (action s) "POST" (fields s) [("Accept", "application/json")]) /\
  (forall j, j <> next_id s -> inflight (submit s) !! j = inflight s !! j) /\
  next_id (submit s) = S (next_id s).
Proof.
  unfold submit; simpl. repeat split.
  - apply lookup_insert_eq.
  - intros j Hj. by apply lookup_insert_ne.
Qed.

(** ** The continuation after [await] *)

Section Settling.
Variables (s : FormState) (i : nat) (r : Request).
Hypothesis Hpending : inflight s !! i = Some r.

(** C7. A pending fetch answered with a 2xx status, on a page that has
    the success message: the success message is shown, every field is
    reset to its default, the error message is untouched, nothing is
    logged, and the fetch is no longer pending. *)
Theorem resume_success (status : Z) (st : Dom.Style) :
  ok status = true -> successMessage s = Some st ->
  resume s i (Response status) =
    mkForm (action s) (defaults s) (defaults s) (Some (<["display" := "block"]> st))
      (errorMessage s) (console s) (delete i (inflight s)) (next_id s).
Proof.
  intros Hok Hst. rewrite (resume_pending _ _ _ _ Hpending). simpl.
  by rewrite Hok, Hst.
Qed.

(** C8. A pending fetch that fails (a status outside 200-299, or a
    network failure): one [console.error] entry is logged with the
    exception, the error message is shown when present, the success
    message and every field keep their values, and the fetch is no
    longer pending. *)
Theorem resume_failure (o : FetchOutcome) :
  succeeded o = false ->
  resume s i o =
    mkForm (action s) (fields s) (defaults s) (successMessage s)
      (set_display "block" (errorMessage s))
      (console s ++ [("Error submitting form:", failure_error o)])
      (delete i (inflight s)) (next_id s).
Proof.
  intros Hf. rewrite (resume_pending _ _ _ _ Hpending). simpl. by rewrite Hf.
Qed.

(** C12. On a page without a success message, a 2xx answer resets no
    field and shows nothing: the [this.reset()] call sits inside
    [if (successMessage)]. *)
Theorem resume_success_without_message (status : Z) :
  ok status = true -> successMessage s = None ->
  resume s i (Response status) = with_inflight s (delete i (inflight s)) (next_id s).
Proof.
  intros Hok Hst. rewrite (resume_pending _ _ _ _ Hpending). simpl.
  by rewrite Hok, Hst.
Qed.
End Settling.

Lemma resume_success_witness :
  let s := submit demo_form in
  let st := <["display" := "none"]> (∅ : Dom.Style) in
  resume s 0 (Response 200) =
    mkForm (action s) (defaults s) (defaults s) (Some (<["display" := "block"]> st))
      (errorMessage s) (console s) (delete 0 (inflight s)) (next_id s).
Proof. intros s st. eapply resume_success; reflexivity. Defined.

Lemma resume_failure_witness :
  let s := submit demo_form in
  resume s 0 (Response 500) =
    mkForm (action s) (fields s) (defaults s) (successMessage s)
      (set_display "block" (errorMessage s))
      (console s ++ [("Error submitting form:", failure_error (Response 500))])
      (delete 0 (inflight s)) (next_id s).
Proof. intros s. eapply resume_failure; reflexivity. Defined.

Lemma resume_success_without_message_witness :
  let s := with_messages (submit demo_form) None (Some ∅) in
  resume s 0 (Response 204) = with_inflight s (delete 0 (inflight s)) (next_id s).
Proof. intros s. eapply resume_success_without_message; reflexivity. Defined.

(** C9. One submission that settles before any other: on a page with
    both messages, a successful answer leaves exactly the success message
    visible and the fields at their defaults; a failed one leaves exactly
    the error message visible and the fields as they were. *)
Theorem submit_then_settle (s : FormState) (o : FetchOutcome) (st1 st2 : Dom.Style) :
  successMessage s = Some st1 -> errorMessage s = Some st2 ->
  let s' := run s [Submit; Settle (next_id s) o] in
  if succeeded o then
    shown (successMessage s') = true /\ shown (errorMessage s') = false /\ fields s' = defaults s
  else
    shown (errorMessage s') = true /\ shown (successMessage s') = false /\ fields s' = fields s.
Proof.
  intros H1 H2 s'. subst s'. unfold run; cbn [fold_left]; cbv [react form_reactive].
  assert (Hreq : inflight (submit s) !! next_id s = Some (formRequest (with_messages s
    (set_display "none" (successMessage s)) (set_display "none" (errorMessage s)))))
    by apply lookup_insert_eq.
  rewrite (resume_pending _ _ _ _ Hreq). cbv zeta. cbn [submit successMessage].
  destruct (succeeded o); cbn; rewrite ?H1, ?H2; cbn; rewrite !lookup_insert_eq.
  all: split; [by apply bool_decide_eq_true|].
  all: split; [apply bool_decide_eq_false; congruence | done].
Qed.

Lemma submit_then_settle_witness :
  successMessage demo_form = Some ∅ /\ errorMessage demo_form = Some ∅ /\
  let s' := run demo_form [Submit; Settle (next_id demo_form) NetworkFailure] in
  shown (errorMessage s') = true /\ shown (successMessage s') = false /\
  fields s' = fields demo_form.
Proof.
  split; [reflexivity|]. split; [reflexivity|].
  exact (submit_then_settle demo_form NetworkFailure ∅ ∅ eq_refl eq_refl).
Defined.

(** C10. As long as the user waits for each submission to settle before
    submitting again, the success and the error message are never both
    visible, and at most one fetch is pending. *)
Theorem serial_exclusive (s : FormState) :
  serial s -> exclusive s /\ (inflight s = ∅ \/ exists i r, inflight s = {[i := r]}).
Proof.
  intros Hs. enough (Hsh : serial_shape s).
  { destruct Hsh as [[? ?] | (i & r & ? & H1 & H2)]; split; eauto.
    intros [H1' _]. congruence. }
  induction Hs as [s Hemp Hex | s _ _ Hemp | s i o _ IH | s k v _ IH].
  - left; auto.
  - by apply serial_shape_submit.
  - by apply serial_shape_react_settle.
  - exact IH.
Qed.

Lemma serial_exclusive_witness :
  exclusive (resume (submit demo_form) 0 (Response 200)).
Proof.
  apply serial_exclusive. apply serial_settle, serial_submit; [|reflexivity].
  apply serial_start; [reflexivity|]. intros [H _]. discriminate.
Defined.

(** C11. Without that wait, the two messages can end up both visible, on
    any page that has both: when two fetches are pending at once and the
    one settled first succeeds while the other fails, the success message
    of the first stays shown next to the error message of the second, since
    neither branch hides the other message. *)
Theorem overlapping_settles_show_both (s : FormState) (i j : nat) (ri rj : Request)
    (st1 st2 : Dom.Style) (status : Z) (o : FetchOutcome) :
  inflight s !! i = Some ri -> inflight s !! j = Some rj -> i <> j ->
  successMessage s = Some st1 -> errorMessage s = Some st2 ->
  ok status = true -> succeeded o = false ->
  let s' := resume (resume s i (Response status)) j o in
  shown (successMessage s') = true /\ shown (errorMessage s') = true.
Proof.
  intros Hi Hj Hne H1 H2 Hok Hf s'. subst s'.
  rewrite (resume_pending _ _ _ _ Hi). cbv zeta. simpl (succeeded _). rewrite Hok, H1.
  rewrite (resume_pending _ _ rj); [|cbn; rewrite lookup_delete_ne; auto].
  rewrite Hf. cbn. rewrite H2.
  split; [apply bool_decide_eq_true, lookup_insert_eq | apply shown_block].
Qed.

Lemma overlapping_settles_show_both_witness :
  let s := submit (submit demo_form) in
  let s' := resume (resume s 0 (Response 200)) 1 (Response 500) in
  shown (successMessage s') = true /\ shown (errorMessage s') = true.
Proof.
  intros s. eapply (overlapping_settles_show_both s 0 1); reflexivity || discriminate.
Defined.

End ContactForm.
