(* ===== verification/Anchor.v ===== *)
(** * Anchor Scroller ([src/src/js/main.js], lines 50-73)

    At [DOMContentLoaded] the script selects the links [a[href^="#"]],
    skips those that are also language switchers, and gives each a click
    listener. The listener reads the [href] attribute, and unless it is
    ['#'] or [''] it prevents the default jump and asks the window to
    scroll smoothly to the target element's [offsetTop] minus 80 pixels of
    fixed header, when an element with that id exists. The requested
    scroll is the [Some top] of the handler's outcome. *)

From Stdlib Require Import String ZArith.
From stdpp Require Import base strings list gmap.
From S2P Require Import Prelude Dom.

Open Scope string_scope.

Module AnchorScroll.

(** The fixed-header clearance subtracted from the target's offset. *)
Definition HEADER_OFFSET : Z := 80.

(** The selector [a[href^="#"]]. *)
Definition is_hash_link (e : Dom.Element) : bool :=
  (Dom.tagName e === "a") &&
  match Dom.href e with Some h => startsWith h "#" | None => false end.

(** The links that receive the listener: [navLinks] without the
    [.language-switcher] ones, in document order. *)
Definition scrollLinks (d : Dom.Document) : list Dom.NodeRef :=
  List.filter
    (fun r => match d !! r with
              | Some e => negb (Dom.has_class "language-switcher" e)
              | None => false
              end)
    (Dom.querySelectorAll is_hash_link d).

(** The click listener, given [this.getAttribute('href')]; the outcome is
    the [top] passed to [window.scrollTo], if it is called. *)
Definition navLinkClick (d : Dom.Document) (href : option string) : Handled (option Z) :=
  match href with
  | None =>
      mkHandled true (inl (TypeError "Cannot read properties of null (reading 'substring')"))
  | Some h =>
      if (h !== "#") && (h !== "") then
        let targetId := substring_from 1 h in
        match Dom.getElementById d targetId with
        | Some targetElement =>
            let offsetTop := (Dom.offsetTop targetElement - HEADER_OFFSET)%Z in
            mkHandled true (inr (Some offsetTop))
        | None => mkHandled true (inr None)
        end
      else mkHandled false (inr None)
  end.

(** ** The click listener *)

Lemma hash_link_guard (i : string) :
  i <> "" -> (("#" ++ i) !== "#") && (("#" ++ i) !== "") = true.
Proof.
  intros Hi. destruct i as [|c i]; [done|]. reflexivity.
Qed.

(** The listener throws only on a missing [href]. *)
Lemma navLinkClick_total (d : Dom.Document) (h : string) :
  exists res, outcome (navLinkClick d (Some h)) = inr res.
Proof.
  unfold navLinkClick. destruct (_ && _); [destruct (Dom.getElementById _ _)|];
    eexists; reflexivity.
Qed.

(** A registered link has an [href]. *)
Lemma scrollLinks_href (d : Dom.Document) (r : Dom.NodeRef) (e : Dom.Element) :
  r ∈ scrollLinks d -> d !! r = Some e -> exists h, Dom.href e = Some h.
Proof.
  intros Hr He. unfold scrollLinks in Hr.
  rewrite list_elem_of_In, filter_In, <- list_elem_of_In, Dom.querySelectorAll_spec in Hr.
  destruct Hr as [(e' & He' & Hl) _]. rewrite He in He'. injection He' as <-.
  unfold is_hash_link in Hl. apply andb_prop in Hl as [_ Hh].
  destruct (Dom.href e) as [h|]; [eauto | done].
Qed.

(** C13. A click on ["#" ++ i] prevents the default jump and asks for a
    scroll to the [offsetTop] of the first element with id [i], less the
    80-pixel header. *)
Theorem navLinkClick_found (d : Dom.Document) (i : string) (k : nat) (e : Dom.Element) :
  i <> "" -> d !! k = Some e -> Dom.id e = i ->
  (forall k' e', k' < k -> d !! k' = Some e' -> Dom.id e' <> i) ->
  navLinkClick d (Some ("#" ++ i)) = mkHandled true (inr (Some (Dom.offsetTop e - 80)%Z)).
Proof.
  intros Hi Hk He Hfirst. unfold navLinkClick. rewrite hash_link_guard by done.
  rewrite substring_from_1_app. by erewrite Dom.getElementById_first.
Qed.

Lemma navLinkClick_found_witness :
  let d := [Dom.mkElement "a" "" ["nav-link"] (Some "#services") ∅ 0;
            Dom.mkElement "section" "services" [] None ∅ 640] in
  navLinkClick d (Some "#services") = mkHandled true (inr (Some 560%Z)).
Proof.
  intros d. apply (navLinkClick_found d "services" 1 (Dom.mkElement "section" "services" [] None ∅ 640));
    [discriminate | reflexivity | reflexivity |].
  intros [|k'] e' Hlt He'; [injection He' as <-; discriminate | lia].
Defined.

(** C14. A click on ["#" ++ i] when no element has the id [i] prevents
    the default jump, requests no scroll and throws nothing. *)
Theorem navLinkClick_missing (d : Dom.Document) (i : string) :
  i <> "" -> (forall e, e ∈ d -> Dom.id e <> i) ->
  navLinkClick d (Some ("#" ++ i)) = mkHandled true (inr None).
Proof.
  intros Hi Hnone. unfold navLinkClick. rewrite hash_link_guard by done.
  rewrite substring_from_1_app. by rewrite Dom.getElementById_missing.
Qed.

Lemma navLinkClick_missing_witness :
  navLinkClick [Dom.mkElement "a" "" [] (Some "#missing-id") ∅ 0] (Some "#missing-id") =
    mkHandled true (inr None).
Proof.
  apply navLinkClick_missing; [discriminate|].
  intros e He. apply list_elem_of_singleton in He as ->. discriminate.
Defined.

(** C15. A click on a bare ['#'] or on an empty [href] is left to the
    browser: the default is not prevented and no scroll is requested. *)
Theorem navLinkClick_bare (d : Dom.Document) :
  navLinkClick d (Some "#") = mkHandled false (inr None) /\
  navLinkClick d (Some "") = mkHandled false (inr None).
Proof. split; reflexivity. Qed.

(** ** The links that get the listener *)

(** C16. The listener goes exactly to the [<a>] elements whose [href]
    starts with ['#'] and that are not language switchers; in particular
    a link with an empty [href] never gets it. *)
Theorem scrollLinks_spec (d : Dom.Document) (r : Dom.NodeRef) :
  r ∈ scrollLinks d <->
  exists e h, d !! r = Some e /\ Dom.tagName e = "a" /\ Dom.href e = Some h /\
    startsWith h "#" = true /\ Dom.has_class "language-switcher" e = false.
Proof.
  unfold scrollLinks. rewrite list_elem_of_In, filter_In, <- list_elem_of_In,
    Dom.querySelectorAll_spec.
  split.
  - intros [(e & He & Hl) Hc]. rewrite He in Hc. apply negb_true_iff in Hc.
    unfold is_hash_link in Hl. apply andb_prop in Hl as [Ha Hh].
    destruct (Dom.href e) as [h|] eqn:Eh; [|done].
    exists e, h. apply str_eq_true in Ha. auto.
  - intros (e & h & He & Ha & Eh & Hh & Hc). rewrite He, Hc. split; [|done].
    exists e. split; [done|]. unfold is_hash_link. rewrite Ha, Eh, Hh. done.
Qed.

(** C17. The listener of a registered link never throws: its [href]
    exists, so the handler either leaves the click to the browser or
    requests a scroll or nothing. *)
Theorem scrollLinks_click_safe (d : Dom.Document) (r : Dom.NodeRef) (e : Dom.Element) :
  r ∈ scrollLinks d -> d !! r = Some e ->
  exists res, outcome (navLinkClick d (Dom.href e)) = inr res.
Proof.
  intros Hr He. destruct (scrollLinks_href d r e Hr He) as [h ->]. apply navLinkClick_total.
Qed.

Lemma scrollLinks_click_safe_witness :
  let e := Dom.mkElement "a" "" [] (Some "#missing-id") ∅ 0 in
  exists res, outcome (navLinkClick [e] (Dom.href e)) = inr res.
Proof.
  intros e. apply (scrollLinks_click_safe [e] 0 e); [|reflexivity].
  vm_compute. left.
Defined.

End AnchorScroll.
