(* ===== verification/Navbar.v ===== *)
(** * Navbar Scroll Styler ([src/src/js/main.js], lines 144-158)

    A [scroll] listener reads [window.pageYOffset] and adds the class
    [scrolled] to the element [.navbar--top-section] when the offset is
    above 100 pixels, and removes it otherwise; it then stores the offset
    in [lastScroll], which nothing reads. Offsets are rationals because
    [pageYOffset] is a fractional number of CSS pixels on zoomed or
    high-density screens. The navbar is the element [querySelector] found
    at [DOMContentLoaded] ([None] when the page has none), represented by
    its class list. *)

From Stdlib Require Import String QArith Morphisms.
From stdpp Require Import base strings list.
From S2P Require Import Prelude Dom.

Open Scope string_scope.

Module NavbarStyler.

Record NavState := mkNav {
  lastScroll : Q;                  (** [let lastScroll] *)
  navbar : option (list string)    (** the class list of [.navbar--top-section] *)
}.

(** The pixel threshold of the style change. *)
Definition SCROLL_THRESHOLD : Q := 100.

(** The [scroll] listener, given [window.pageYOffset]. *)
Definition onScroll (s : NavState) (pageYOffset : Q) : NavState :=
  let currentScroll := pageYOffset in
  let navbar' :=
    if negb (Qle_bool currentScroll SCROLL_THRESHOLD)
    then Dom.add "scrolled" <$> navbar s
    else Dom.remove "scrolled" <$> navbar s in
  mkNav currentScroll navbar'.

#[export] Instance navbar_reactive : Reactive NavState Q := onScroll.

(** Two states are equivalent when they hold the same class list and
    offsets equal as numbers. *)
Definition nav_equiv (s1 s2 : NavState) : Prop :=
  (lastScroll s1 == lastScroll s2)%Q /\ navbar s1 = navbar s2.

(** Whether the navbar carries [scrolled]. *)
Definition is_scrolled (s : NavState) : bool :=
  match navbar s with Some cl => Dom.contains "scrolled" cl | None => false end.

(** ** Lemmas *)

Lemma scrolled_test (y : Q) : negb (Qle_bool y SCROLL_THRESHOLD) = true <-> (100 < y)%Q.
Proof.
  rewrite negb_true_iff. unfold SCROLL_THRESHOLD. split.
  - intros H. apply Qnot_le_lt. intros Hle. apply Qle_bool_iff in Hle. congruence.
  - intros H. destruct (Qle_bool y 100) eqn:E; [|done].
    apply Qle_bool_iff in E. exfalso. by apply (Qlt_not_le _ _ H).
Qed.

Lemma add_remove_scrolled (b : bool) (cl : list string) :
  ("scrolled" ∈ (if b then Dom.add "scrolled" cl else Dom.remove "scrolled" cl) <-> b = true) /\
  (forall c, c <> "scrolled" ->
     c ∈ (if b then Dom.add "scrolled" cl else Dom.remove "scrolled" cl) <-> c ∈ cl).
Proof.
  destruct b; split.
  - split; [done|]. intros _. apply Dom.add_elem. by left.
  - intros c Hc. rewrite Dom.add_elem. naive_solver.
  - rewrite Dom.remove_elem. naive_solver.
  - intros c Hc. rewrite Dom.remove_elem. naive_solver.
Qed.

#[export] Instance onScroll_proper : Proper (nav_equiv ==> Qeq ==> nav_equiv) onScroll.
Proof.
  intros s1 s2 [_ Hnav] y1 y2 Hy. unfold onScroll, nav_equiv. simpl.
  split; [done|]. rewrite Hnav, Hy. done.
Qed.

(** ** Theorems *)

(** C18. After a scroll event at offset [y], the navbar carries [scrolled]
    exactly when [y] is above 100 (an offset of exactly 100 removes it),
    keeps every other class it had, and the offset is remembered in
    [lastScroll]; a page without a navbar is left without one. *)
Theorem onScroll_spec (s : NavState) (y : Q) :
  lastScroll (onScroll s y) = y /\
  match navbar s with
  | Some cl =>
      exists cl', navbar (onScroll s y) = Some cl' /\
        ("scrolled" ∈ cl' <-> (100 < y)%Q) /\
        (forall c, c <> "scrolled" -> c ∈ cl' <-> c ∈ cl)
  | None => navbar (onScroll s y) = None
  end.
Proof.
  split; [done|]. unfold onScroll; simpl.
  destruct (navbar s) as [cl|]; [| by destruct (negb (Qle_bool y SCROLL_THRESHOLD))].
  destruct (add_remove_scrolled (negb (Qle_bool y SCROLL_THRESHOLD)) cl) as [H1 H2].
  exists (if negb (Qle_bool y SCROLL_THRESHOLD) then Dom.add "scrolled" cl
          else Dom.remove "scrolled" cl).
  split; [by destruct (negb (Qle_bool y SCROLL_THRESHOLD))|].
  rewrite <- scrolled_test, <- H1. split; [done | exact H2].
Qed.

Lemma onScroll_classes (s : NavState) (y : Q) (cl : list string) :
  navbar s = Some cl ->
  exists cl', navbar (onScroll s y) = Some cl' /\
    ("scrolled" ∈ cl' <-> (100 < y)%Q) /\
    (forall c, c <> "scrolled" -> c ∈ cl' <-> c ∈ cl).
Proof.
  intros Hs. unfold onScroll; simpl. rewrite Hs.
  destruct (add_remove_scrolled (negb (Qle_bool y SCROLL_THRESHOLD)) cl) as [H1 H2].
  exists (if negb (Qle_bool y SCROLL_THRESHOLD) then Dom.add "scrolled" cl
          else Dom.remove "scrolled" cl).
  split; [by destruct (negb (Qle_bool y SCROLL_THRESHOLD))|].
  rewrite <- scrolled_test, <- H1. split; [done | exact H2].
Qed.

(** C19. Scroll events are idempotent: handling the same offset twice
    leaves the same state as handling it once, so repeated events at one
    offset never toggle the class. *)
Theorem onScroll_idempotent (s : NavState) (y : Q) :
  onScroll (onScroll s y) y = onScroll s y.
Proof.
  unfold onScroll; simpl. f_equal.
  destruct (negb (Qle_bool y SCROLL_THRESHOLD)), (navbar s) as [cl|]; simpl;
    by rewrite ?Dom.add_idem, ?Dom.remove_idem.
Qed.

(** C20. The style is level-triggered: after any sequence of scroll
    events ending at offset [y], whether the navbar carries [scrolled]
    depends on [y] alone, and every other class of the navbar is the one
    it had before the sequence. *)
Theorem run_level_triggered (s : NavState) (cl : list string) (evs : list Q) (y : Q) :
  navbar s = Some cl ->
  exists cl', navbar (run s (evs ++ [y])) = Some cl' /\
    ("scrolled" ∈ cl' <-> (100 < y)%Q) /\
    (forall c, c <> "scrolled" -> c ∈ cl' <-> c ∈ cl).
Proof.
  intros Hs.
  assert (Hinv : exists cl0, navbar (run s evs) = Some cl0 /\
            forall c, c <> "scrolled" -> c ∈ cl0 <-> c ∈ cl).
  { apply (run_invariant (fun t => exists cl0, navbar t = Some cl0 /\
            forall c, c <> "scrolled" -> c ∈ cl0 <-> c ∈ cl)); [|eauto; naive_solver].
    intros t y' (cl0 & Ht & Hcl0).
    destruct (onScroll_classes t y' cl0 Ht) as (cl1 & Ht1 & _ & Hcl1). exists cl1. split; [done|].
    intros c Hc. rewrite Hcl1, Hcl0 by done. done. }
  destruct Hinv as (cl0 & Hr & Hcl0). rewrite run_snoc.
  destruct (onScroll_classes (run s evs) y cl0 Hr) as (cl' & Hr' & Hsc & Hcl').
  exists cl'. split; [done|]. split; [done|].
  intros c Hc. rewrite Hcl', Hcl0 by done. done.
Qed.

Lemma run_level_triggered_witness :
  exists cl', navbar (run (mkNav 0 (Some ["navbar--top-section"])) ([300%Q; 50%Q] ++ [100%Q]))
                = Some cl' /\
    ("scrolled" ∈ cl' <-> (100 < 100)%Q) /\
    (forall c, c <> "scrolled" -> c ∈ cl' <-> c ∈ ["navbar--top-section"]).
Proof. exact (run_level_triggered (mkNav 0 (Some ["navbar--top-section"])) _ [300%Q; 50%Q] 100%Q eq_refl). Defined.

End NavbarStyler.
