(* ===== verification/FadeIn.v ===== *)
(** * Fade-In Observer ([src/src/js/main.js], lines 120-142)

    At [DOMContentLoaded] the script creates an [IntersectionObserver]
    with threshold 0.1 and root margin [0px 0px -50px 0px], selects the
    elements of five classes, gives each an inline opacity 0, a 20-pixel
    downward shift and a transition, and observes it. The observer's
    callback reveals every entry that is intersecting (opacity 1, no
    shift) and never hides anything again.

    The browser's side is the "update intersection observations" steps of
    the W3C Intersection Observer specification, on the vertical axis
    (elements are taken to lie horizontally within the viewport): each
    registration remembers its previous threshold index (initially -1) and
    previous [isIntersecting] (initially false), and an entry is queued when
    either changes. A [Frame] event is one run of those steps at a given
    viewport height and element geometry, followed by the callback. *)

From Stdlib Require Import String ZArith QArith.
From stdpp Require Import base strings list gmap.
From S2P Require Import Prelude Dom.

Open Scope string_scope.

Module FadeIn.

(** [observerOptions]: the threshold and the bottom root margin. *)
Definition threshold : Q := 1 # 10.
Definition rootMarginBottom : Z := (-50)%Z.

(** The selector [.service-card, .potential-card1, .hero-heading,
    .hero-details, .hero-button]. *)
Definition animatedClasses : list string :=
  ["service-card"; "potential-card1"; "hero-heading"; "hero-details"; "hero-button"].

Definition isAnimated (e : Dom.Element) : bool :=
  existsb (fun c => Dom.has_class c e) animatedClasses.

Record Entry := mkEntry {
  target : Dom.NodeRef;
  isIntersecting : bool
}.

(** The observer callback: [entries.forEach(...)]. *)
Definition revealEntry (d : Dom.Document) (entry : Entry) : Dom.Document :=
  if isIntersecting entry then
    Dom.assign_style (target entry) "transform" "translateY(0)"
      (Dom.assign_style (target entry) "opacity" "1" d)
  else d.

Definition onIntersect (d : Dom.Document) (entries : list Entry) : Dom.Document :=
  fold_left revealEntry entries d.

(** The per-element setup of [animatedElements.forEach(...)], before
    [observer.observe(el)]. *)
Definition hideElement (d : Dom.Document) (el : Dom.NodeRef) : Dom.Document :=
  Dom.assign_style el "transition" "opacity 0.6s ease, transform 0.6s ease"
    (Dom.assign_style el "transform" "translateY(20px)"
      (Dom.assign_style el "opacity" "0" d)).

(** ** The browser's intersection observations *)

Record Registration := mkReg {
  previousThresholdIndex : Z;
  previousIsIntersecting : bool
}.

(** The target's top edge in viewport coordinates and its height. *)
Record Geometry := mkGeometry {
  rectTop : Z;
  rectHeight : Z
}.

Record FadeState := mkFade {
  doc : Dom.Document;
  registrations : list (Dom.NodeRef * Registration)
}.

Inductive FadeEvent :=
  | Frame (viewportHeight : Z) (geometry : Dom.NodeRef -> Geometry).

(** The bottom of the root after the margin. *)
Definition rootBottom (vh : Z) : Z := (vh + rootMarginBottom)%Z.

(** Intersecting or edge-adjacent. *)
Definition intersects (vh : Z) (g : Geometry) : bool :=
  ((rectTop g <=? rootBottom vh) && (0 <=? rectTop g + rectHeight g))%Z.

Definition intersectionRatio (vh : Z) (g : Geometry) : Q :=
  let overlap := Z.max 0 (Z.min (rectTop g + rectHeight g) (rootBottom vh) - Z.max (rectTop g) 0) in
  if (0 <? rectHeight g)%Z then inject_Z overlap / inject_Z (rectHeight g)
  else if intersects vh g then 1 else 0.

(** The index of the first threshold above the ratio. *)
Definition thresholdIndex (vh : Z) (g : Geometry) : Z :=
  if Qle_bool threshold (intersectionRatio vh g) then 1 else 0.

Fixpoint updateObservations (vh : Z) (geom : Dom.NodeRef -> Geometry)
    (regs : list (Dom.NodeRef * Registration))
    : list (Dom.NodeRef * Registration) * list Entry :=
  match regs with
  | [] => ([], [])
  | (r, reg) :: rest =>
      let g := geom r in
      let ii := intersects vh g in
      let ti := thresholdIndex vh g in
      let '(rest', entries) := updateObservations vh geom rest in
      ((r, mkReg ti ii) :: rest',
       if ((ti =? previousThresholdIndex reg)%Z && Bool.eqb ii (previousIsIntersecting reg))
       then entries else mkEntry r ii :: entries)
  end.

Definition frame (s : FadeState) (vh : Z) (geom : Dom.NodeRef -> Geometry) : FadeState :=
  let '(regs', entries) := updateObservations vh geom (registrations s) in
  mkFade (onIntersect (doc s) entries) regs'.

#[export] Instance fade_reactive : Reactive FadeState FadeEvent :=
  fun s e => match e with Frame vh geom => frame s vh geom end.

(** The whole setup: hide and observe every animated element. *)
Definition setup (d : Dom.Document) : FadeState :=
  let animatedElements := Dom.querySelectorAll isAnimated d in
  mkFade (fold_left hideElement animatedElements d)
    (map (fun el => (el, mkReg (-1) false)) animatedElements).

(** The observed elements. *)
Definition observed (s : FadeState) : list Dom.NodeRef := map fst (registrations s).

(** The three inline properties an observed element receives. *)
Definition hidden (d : Dom.Document) (r : Dom.NodeRef) : Prop :=
  Dom.style_of d r "opacity" = Some "0" /\
  Dom.style_of d r "transform" = Some "translateY(20px)" /\
  Dom.style_of d r "transition" = Some "opacity 0.6s ease, transform 0.6s ease".

(** ** Lemmas on the callback *)

Lemma length_revealEntry (d : Dom.Document) (e : Entry) :
  length (revealEntry d e) = length d.
Proof. unfold revealEntry. destruct (isIntersecting e); by rewrite ?Dom.length_assign_style. Qed.

Lemma length_onIntersect (d : Dom.Document) (es : list Entry) :
  length (onIntersect d es) = length d.
Proof.
  unfold onIntersect. revert d. induction es as [|e es IH]; intros d; [done|].
  simpl. by rewrite IH, length_revealEntry.
Qed.

Lemma revealEntry_opacity (d : Dom.Document) (e : Entry) (r : Dom.NodeRef) :
  Dom.style_of (revealEntry d e) r "opacity" =
    if isIntersecting e && bool_decide (target e = r) && bool_decide (r < length d)
    then Some "1" else Dom.style_of d r "opacity".
Proof.
  unfold revealEntry. destruct (isIntersecting e); [|done]. simpl.
  rewrite Dom.style_of_assign_ne by (right; discriminate).
  destruct (decide (target e = r)) as [<-|Hne].
  - rewrite bool_decide_true by done.
    destruct (decide (target e < length d)).
    + rewrite bool_decide_true by done. by apply Dom.style_of_assign_eq.
    + rewrite bool_decide_false by done. unfold Dom.style_of, Dom.assign_style.
      rewrite list_lookup_alter_eq, (proj2 (lookup_ge_None _ _)) by lia. done.
  - rewrite bool_decide_false by done. simpl.
    by rewrite Dom.style_of_assign_ne by (left; done).
Qed.

Lemma revealEntry_other (d : Dom.Document) (e : Entry) (r : Dom.NodeRef) (p : string) :
  (isIntersecting e = true -> target e <> r) ->
  Dom.style_of (revealEntry d e) r p = Dom.style_of d r p.
Proof.
  intros H. unfold revealEntry. destruct (isIntersecting e); [|done].
  rewrite !Dom.style_of_assign_ne; auto.
Qed.

Lemma onIntersect_untouched (d : Dom.Document) (es : list Entry) (r : Dom.NodeRef) (p : string) :
  (forall e, e ∈ es -> isIntersecting e = true -> target e <> r) ->
  Dom.style_of (onIntersect d es) r p = Dom.style_of d r p.
Proof.
  unfold onIntersect. revert d. induction es as [|e es IH]; intros d H; [done|]. simpl.
  rewrite IH by set_solver. apply revealEntry_other. set_solver.
Qed.

(** The callback only ever writes ['1'] into an opacity. *)
Lemma onIntersect_opacity (d : Dom.Document) (es : list Entry) (r : Dom.NodeRef) :
  Dom.style_of (onIntersect d es) r "opacity" = Dom.style_of d r "opacity" \/
  Dom.style_of (onIntersect d es) r "opacity" = Some "1".
Proof.
  unfold onIntersect. revert d. induction es as [|e es IH]; intros d; [by left|]. simpl.
  destruct (IH (revealEntry d e)) as [-> | ->]; [|by right].
  rewrite revealEntry_opacity. case_match; auto.
Qed.

Lemma onIntersect_reveals (d : Dom.Document) (es : list Entry) (r : Dom.NodeRef) :
  mkEntry r true ∈ es -> r < length d ->
  Dom.style_of (onIntersect d es) r "opacity" = Some "1".
Proof.
  unfold onIntersect. revert d. induction es as [|e es IH]; intros d Hin Hr;
    [set_solver|]. simpl. apply elem_of_cons in Hin as [<- | Hin].
  - destruct (onIntersect_opacity (revealEntry d (mkEntry r true)) es r) as [Hs | Hs];
      unfold onIntersect in Hs; rewrite Hs; [|done].
    rewrite revealEntry_opacity. simpl. by rewrite !bool_decide_true.
  - apply IH; [done|]. by rewrite length_revealEntry.
Qed.

(** ** Lemmas on the observations *)

Lemma updateObservations_targets (vh : Z) (geom : Dom.NodeRef -> Geometry)
    (regs : list (Dom.NodeRef * Registration)) :
  map fst (updateObservations vh geom regs).1 = map fst regs /\
  forall e, e ∈ (updateObservations vh geom regs).2 ->
    target e ∈ map fst regs /\ isIntersecting e = intersects vh (geom (target e)).
Proof.
  induction regs as [|[r reg] rest [IH1 IH2]]; simpl; [split; [done | set_solver]|].
  destruct (updateObservations vh geom rest) as [rest' es]. simpl in *.
  split; [by rewrite IH1|]. intros e He.
  case_match; [destruct (IH2 e He); set_solver|].
  apply elem_of_cons in He as [-> | He]; [simpl; set_solver|].
  destruct (IH2 e He). set_solver.
Qed.

Lemma updateObservations_queues (vh : Z) (geom : Dom.NodeRef -> Geometry)
    (regs : list (Dom.NodeRef * Registration)) (r : Dom.NodeRef) (reg : Registration) :
  (r, reg) ∈ regs -> previousIsIntersecting reg <> intersects vh (geom r) ->
  mkEntry r (intersects vh (geom r)) ∈ (updateObservations vh geom regs).2.
Proof.
  induction regs as [|[r' reg'] rest IH]; intros Hin Hch; [set_solver|]. simpl.
  destruct (updateObservations vh geom rest) as [rest' es] eqn:E. simpl.
  apply elem_of_cons in Hin as [Heq | Hin].
  - injection Heq as <- <-.
    replace (Bool.eqb _ _) with false by (symmetry; apply Bool.eqb_false_iff; congruence).
    rewrite andb_false_r. set_solver.
  - specialize (IH Hin Hch). simpl in IH. case_match; set_solver.
Qed.

(** ** Lemmas on the setup *)

Lemma length_hideElement (d : Dom.Document) (el : Dom.NodeRef) :
  length (hideElement d el) = length d.
Proof. unfold hideElement. by rewrite !Dom.length_assign_style. Qed.

Lemma hideElement_other (d : Dom.Document) (el r : Dom.NodeRef) (p : string) :
  el <> r -> Dom.style_of (hideElement d el) r p = Dom.style_of d r p.
Proof. intros Hne. unfold hideElement. rewrite !Dom.style_of_assign_ne; auto. Qed.

Lemma hideElement_self (d : Dom.Document) (r : Dom.NodeRef) :
  r < length d -> hidden (hideElement d r) r.
Proof.
  intros Hr. unfold hidden, hideElement.
  rewrite !(Dom.style_of_assign_ne _ r r "transition") by (right; discriminate).
  rewrite !(Dom.style_of_assign_ne _ r r "transform" "opacity") by (right; discriminate).
  rewrite !Dom.style_of_assign_eq; rewrite ?Dom.length_assign_style; auto.
Qed.

Lemma hide_fold_notin (l : list Dom.NodeRef) (d : Dom.Document) (r : Dom.NodeRef) (p : string) :
  r ∉ l -> Dom.style_of (fold_left hideElement l d) r p = Dom.style_of d r p.
Proof.
  revert d. induction l as [|el l IH]; intros d Hr; [done|]. simpl.
  rewrite IH by set_solver. apply hideElement_other. set_solver.
Qed.

Lemma length_hide_fold (l : list Dom.NodeRef) (d : Dom.Document) :
  length (fold_left hideElement l d) = length d.
Proof.
  revert d. induction l as [|el l IH]; intros d; [done|]. simpl.
  by rewrite IH, length_hideElement.
Qed.

Lemma hide_fold_in (l : list Dom.NodeRef) (d : Dom.Document) (r : Dom.NodeRef) :
  r ∈ l -> r < length d -> hidden (fold_left hideElement l d) r.
Proof.
  revert d. induction l as [|el l IH]; intros d Hin Hr; [set_solver|]. simpl.
  destruct (decide (r ∈ l)) as [Hl|Hl]; [apply IH; [done | by rewrite length_hideElement]|].
  assert (el = r) as -> by set_solver.
  destruct (hideElement_self d r Hr) as (H1 & H2 & H3).
  unfold hidden. rewrite !hide_fold_notin by done. auto.
Qed.

Lemma frame_observed (s : FadeState) (vh : Z) (geom : Dom.NodeRef -> Geometry) :
  observed (frame s vh geom) = observed s /\ length (doc (frame s vh geom)) = length (doc s).
Proof.
  unfold frame, observed. destruct (updateObservations_targets vh geom (registrations s)) as [H1 _].
  destruct (updateObservations _ _ _) as [regs' es]. simpl in *.
  split; [done | apply length_onIntersect].
Qed.

Lemma frame_style (s : FadeState) (vh : Z) (geom : Dom.NodeRef -> Geometry) (r : Dom.NodeRef) :
  (r ∉ observed s -> forall p, Dom.style_of (doc (frame s vh geom)) r p = Dom.style_of (doc s) r p) /\
  (Dom.style_of (doc (frame s vh geom)) r "opacity" = Dom.style_of (doc s) r "opacity" \/
   Dom.style_of (doc (frame s vh geom)) r "opacity" = Some "1").
Proof.
  unfold frame, observed. destruct (updateObservations_targets vh geom (registrations s)) as [_ H2].
  destruct (updateObservations _ _ _) as [regs' es]. simpl in *.
  split; [|apply onIntersect_opacity].
  intros Hr p. apply onIntersect_untouched. intros e He _ <-. by apply Hr, H2.
Qed.

(** ** Theorems *)

(** C21. The setup observes exactly the elements of the five classes, in
    document order, and gives each of them opacity 0, a 20-pixel shift and
    the transition; the style of every other element is untouched. *)
Theorem setup_spec (d : Dom.Document) (r : Dom.NodeRef) (e : Dom.Element) :
  d !! r = Some e ->
  observed (setup d) = Dom.querySelectorAll isAnimated d /\
  (isAnimated e = true -> hidden (doc (setup d)) r) /\
  (isAnimated e = false -> forall p, Dom.style_of (doc (setup d)) r p = Dom.style_of d r p).
Proof.
  intros He. split; [unfold observed, setup; simpl; by rewrite map_map, map_id|].
  split; intros Ha; simpl.
  - apply hide_fold_in; [apply Dom.querySelectorAll_spec; eauto|].
    by apply lookup_lt_Some in He.
  - intros p. apply hide_fold_notin. rewrite Dom.querySelectorAll_spec.
    intros (e' & He' & Ha'). congruence.
Qed.

Lemma setup_spec_witness :
  let d := [Dom.mkElement "h1" "" ["hero-heading"] None ∅ 0] in
  hidden (doc (setup d)) 0.
Proof.
  intros d. apply (setup_spec d 0 (Dom.mkElement "h1" "" ["hero-heading"] None ∅ 0));
    reflexivity.
Defined.

(** C22. A revealed element stays revealed: once its opacity is ['1'], no
    later frame changes it, whether or not the element is still in view. *)
Theorem reveal_one_way (s : FadeState) (evs : list FadeEvent) (r : Dom.NodeRef) :
  Dom.style_of (doc s) r "opacity" = Some "1" ->
  Dom.style_of (doc (run s evs)) r "opacity" = Some "1".
Proof.
  apply (run_invariant (fun t => Dom.style_of (doc t) r "opacity" = Some "1")).
  intros t [vh geom] Ht. cbv [react fade_reactive].
  by destruct (frame_style t vh geom r) as [_ [-> | ->]].
Qed.

Lemma reveal_one_way_witness :
  let s := mkFade [Dom.mkElement "h1" "" ["hero-heading"] None {[ "opacity" := "1" ]} 0]
                  [(0, mkReg 1 true)] in
  Dom.style_of (doc (run s [Frame 800 (fun _ => mkGeometry 2000 100)])) 0 "opacity" = Some "1".
Proof. intros s. apply reveal_one_way. reflexivity. Defined.

(** C23. Along any sequence of frames after the setup, the set of
    observed elements does not change, every observed element has opacity
    ['0'] or ['1'], and every other element keeps the inline style it had
    before the setup. *)
Theorem setup_run_invariant (d : Dom.Document) (evs : list FadeEvent) (r : Dom.NodeRef) :
  observed (run (setup d) evs) = observed (setup d) /\
  (r ∈ observed (setup d) ->
     Dom.style_of (doc (run (setup d) evs)) r "opacity" = Some "0" \/
     Dom.style_of (doc (run (setup d) evs)) r "opacity" = Some "1") /\
  (r ∉ observed (setup d) ->
     forall p, Dom.style_of (doc (run (setup d) evs)) r p = Dom.style_of d r p).
Proof.
  apply (run_invariant (fun t => observed t = observed (setup d) /\
    (r ∈ observed (setup d) -> Dom.style_of (doc t) r "opacity" = Some "0" \/
                                 Dom.style_of (doc t) r "opacity" = Some "1") /\
    (r ∉ observed (setup d) -> forall p, Dom.style_of (doc t) r p = Dom.style_of d r p))).
  - intros t [vh geom] (Hobs & Hin & Hout). cbv [react fade_reactive].
    destruct (frame_observed t vh geom) as [Hobs' _].
    destruct (frame_style t vh geom r) as [Hnot Hop]. rewrite Hobs'.
    split; [done|]. split.
    + intros Hr. destruct Hop as [-> | ->]; auto.
    + intros Hr p. rewrite Hnot by congruence. auto.
  - split; [done|]. split.
    + intros Hr. left. unfold observed, setup in Hr. simpl in Hr.
      rewrite map_map, map_id in Hr.
      destruct (proj1 (Dom.querySelectorAll_spec _ _ _) Hr) as (e & He & Ha).
      apply hide_fold_in; [done | by apply lookup_lt_Some in He].
    + intros Hr p. apply hide_fold_notin. unfold observed, setup in Hr. simpl in Hr.
      by rewrite map_map, map_id in Hr.
Qed.

(** C24. A frame in which an observed element comes into the root (it
    intersects now and did not at the previous observation) reveals it. *)
Theorem frame_reveals (s : FadeState) (vh : Z) (geom : Dom.NodeRef -> Geometry)
    (r : Dom.NodeRef) (reg : Registration) :
  (r, reg) ∈ registrations s -> previousIsIntersecting reg = false ->
  intersects vh (geom r) = true -> r < length (doc s) ->
  Dom.style_of (doc (frame s vh geom)) r "opacity" = Some "1".
Proof.
  intros Hreg Hprev Hint Hr.
  pose proof (updateObservations_queues vh geom _ r reg Hreg) as Hq.
  rewrite Hprev, Hint in Hq. specialize (Hq ltac:(discriminate)).
  unfold frame. destruct (updateObservations _ _ _) as [regs' es]. simpl in *.
  by apply onIntersect_reveals.
Qed.

Lemma frame_reveals_witness :
  let s := setup [Dom.mkElement "div" "" ["service-card"] None ∅ 0] in
  Dom.style_of (doc (frame s 800 (fun _ => mkGeometry 300 200))) 0 "opacity" = Some "1".
Proof.
  intros s. apply (frame_reveals s 800 _ 0 (mkReg (-1) false));
    [vm_compute; left | reflexivity | reflexivity | vm_compute; lia].
Defined.

End FadeIn.
