(* ===== verification/Page.v ===== *)
(** * Page Controller ([src/src/js/main.js], lines 29-159)

    The [DOMContentLoaded] listener looks up the nodes the behaviours need
    (the [.language-switcher] links, the [a[href^="#"]] links,
    [#contact-form], [.success-message], [.error-message],
    [.navbar--top-section], the animated elements) and registers the
    listeners. [domContentLoaded] builds the state of every component from
    the document; [dispatch] delivers an event: a click on a node runs the
    listeners registered on that node, in registration order, and then the
    browser's default action when none of them prevented it.

    The browser's side of an assignment to [window.location.href]
    ([assign_href]) follows the HTML navigation rules for the path-absolute
    and ['#'] URLs the script produces: a URL with a fragment and the
    current path is a fragment navigation (the page stays, [location.hash]
    changes); any other URL loads a new document, and from then on no
    listener of this page runs. An exception a listener throws is
    reported by the browser and stops only that listener. *)

From Stdlib Require Import String ZArith QArith.
From stdpp Require Import base strings list gmap.
From S2P Require Import Prelude Dom Language Form Anchor Navbar FadeIn.

Open Scope string_scope.

Module Page.

Import Router ContactForm AnchorScroll NavbarStyler FadeIn.

Record PageState := mkPage {
  location : Location;
  document : Dom.Document;
  switchers : list Dom.NodeRef;        (** [languageSwitchers] *)
  scrollLinkRefs : list Dom.NodeRef;   (** the [navLinks] given a listener *)
  navigation : option string;          (** a cross-document navigation started *)
  scrollRequests : list Z;             (** the [top]s passed to [window.scrollTo] *)
  uncaught : list JsError;             (** exceptions thrown by listeners *)
  form : option FormState;             (** [None]: no [#contact-form], no listener *)
  fade : FadeState;
  nav : NavState
}.

Inductive PageEvent :=
  | Click (r : Dom.NodeRef)
  | FormEv (e : FormEvent)
  | FadeEv (e : FadeEvent)
  | ScrollEv (pageYOffset : Q).

(** The contact form's listener state, when [#contact-form] exists; its
    [action] and controls are not attributes of the element model and are
    given. *)
Definition initForm (d : Dom.Document) (action : string)
    (controls : list (string * string)) : option FormState :=
  let successMessage := Dom.querySelector (Dom.has_class "success-message") d in
  let errorMessage := Dom.querySelector (Dom.has_class "error-message") d in
  let style_at r := Dom.style <$> (r ≫= fun r => d !! r) in
  match Dom.getElementById d "contact-form" with
  | Some _ =>
      Some (mkForm action controls controls (style_at successMessage)
              (style_at errorMessage) [] ∅ 0)
  | None => None
  end.

Definition domContentLoaded (loc : Location) (d : Dom.Document) (action : string)
    (controls : list (string * string)) : PageState :=
  let languageSwitchers := Dom.querySelectorAll (Dom.has_class "language-switcher") d in
  let navbar := Dom.querySelector (Dom.has_class "navbar--top-section") d in
  mkPage loc d languageSwitchers (scrollLinks d) None [] [] (initForm d action controls)
    (setup d) (mkNav 0 (Dom.classList <$> (navbar ≫= fun r => d !! r))).

(** ** Updates of the page state *)

Definition with_location (s : PageState) (l : Location) : PageState :=
  mkPage l (document s) (switchers s) (scrollLinkRefs s) (navigation s)
    (scrollRequests s) (uncaught s) (form s) (fade s) (nav s).

Definition with_navigation (s : PageState) (u : string) : PageState :=
  mkPage (location s) (document s) (switchers s) (scrollLinkRefs s) (Some u)
    (scrollRequests s) (uncaught s) (form s) (fade s) (nav s).

Definition throw (s : PageState) (err : JsError) : PageState :=
  mkPage (location s) (document s) (switchers s) (scrollLinkRefs s) (navigation s)
    (scrollRequests s) (uncaught s ++ [err]) (form s) (fade s) (nav s).

Definition add_scroll (s : PageState) (top : option Z) : PageState :=
  match top with
  | Some t => mkPage (location s) (document s) (switchers s) (scrollLinkRefs s)
                (navigation s) (scrollRequests s ++ [t]) (uncaught s) (form s) (fade s) (nav s)
  | None => s
  end.

Definition with_components (s : PageState) (f : option FormState) (g : FadeState)
    (n : NavState) : PageState :=
  mkPage (location s) (document s) (switchers s) (scrollLinkRefs s) (navigation s)
    (scrollRequests s) (uncaught s) f g n.

(** ** The browser *)

(** The URL an [href] designates: ['#'] URLs are relative to the current
    path, the others are path-absolute. *)
Definition resolve (loc : Location) (h : string) : string :=
  if startsWith h "#" then pathname loc ++ h else h.

(** A same-document fragment navigation: the URL has a fragment and the
    current path. *)
Definition fragment_navigation (loc : Location) (u : string) : bool :=
  ((split_hash u).2 !== "") && (pathname (navigate u) === pathname loc).

(** [window.location.href = u] *)
Definition assign_href (s : PageState) (u : string) : PageState :=
  if fragment_navigation (location s) u then with_location s (navigate u)
  else with_navigation s u.

(** Run one listener's result: an exception is reported, an effect applied. *)
Definition apply_handled {A} (s : PageState) (h : Handled A)
    (k : PageState -> A -> PageState) : PageState :=
  match outcome h with
  | inl err => throw s err
  | inr a => k s a
  end.

(** The listener of a [.language-switcher] link (registered first, line
    34) on node [r], if [r] has it: the page after it, and whether it
    prevented the default. *)
Definition switcherListener (s : PageState) (r : Dom.NodeRef) (el : Dom.Element)
    : PageState * bool :=
  if bool_decide (r ∈ switchers s) then
    let h := languageSwitcherClick (location s) (Dom.href el) in
    (apply_handled s h assign_href, defaultPrevented h)
  else (s, false).

(** The scroll listener (line 58) on node [r], run on the page [s1] left by
    the listeners before it. *)
Definition scrollListener (s s1 : PageState) (r : Dom.NodeRef) (el : Dom.Element)
    : PageState * bool :=
  if bool_decide (r ∈ scrollLinkRefs s) then
    let h := navLinkClick (document s) (Dom.href el) in
    (apply_handled s1 h add_scroll, defaultPrevented h)
  else (s1, false).

(** A click on node [r]: its listeners in registration order, then the
    default action of a link when none prevented it. *)
Definition click (s : PageState) (r : Dom.NodeRef) : PageState :=
  match document s !! r with
  | None => s
  | Some el =>
      let '(s1, p1) := switcherListener s r el in
      let '(s2, p2) := scrollListener s s1 r el in
      match Dom.href el with
      | Some href =>
          if negb (p1 || p2) && (Dom.tagName el === "a")
          then assign_href s2 (resolve (location s2) href) else s2
      | None => s2
      end
  end.

Definition dispatch (s : PageState) (e : PageEvent) : PageState :=
  match navigation s with
  | Some _ => s
  | None =>
      match e with
      | Click r => click s r
      | FormEv fe => with_components s ((fun f => react f fe) <$> form s) (fade s) (nav s)
      | FadeEv fe => with_components s (form s) (react (fade s) fe) (nav s)
      | ScrollEv y => with_components s (form s) (fade s) (react (nav s) y)
      end
  end.

#[export] Instance page_reactive : Reactive PageState PageEvent := dispatch.

(** The markup contract of the switchers: every [.language-switcher]
    element has an [href]. *)
Definition switchers_have_href (d : Dom.Document) : Prop :=
  forall r e, d !! r = Some e -> Dom.has_class "language-switcher" e = true ->
    exists h, Dom.href e = Some h.

(** The parts of a loaded page its listeners never change, and no
    exception reported so far. *)
Definition quiet_page (d : Dom.Document) (t : PageState) : Prop :=
  document t = d /\
  switchers t = Dom.querySelectorAll (Dom.has_class "language-switcher") d /\
  scrollLinkRefs t = scrollLinks d /\
  uncaught t = [].

(** ** Lemmas *)

Lemma assign_href_quiet (d : Dom.Document) (t : PageState) (u : string) :
  quiet_page d t -> quiet_page d (assign_href t u).
Proof. unfold assign_href. by case_match. Qed.

Lemma add_scroll_quiet (d : Dom.Document) (t : PageState) (top : option Z) :
  quiet_page d t -> quiet_page d (add_scroll t top).
Proof. by destruct top. Qed.

Lemma apply_handled_quiet {A} (d : Dom.Document) (t : PageState) (h : Handled A) (a : A)
    (k : PageState -> A -> PageState) :
  outcome h = inr a -> (forall t', quiet_page d t' -> quiet_page d (k t' a)) ->
  quiet_page d t -> quiet_page d (apply_handled t h k).
Proof. intros Ho Hk Ht. unfold apply_handled. rewrite Ho. auto. Qed.

Lemma switcher_click_total (loc : Location) (h : string) :
  exists u, outcome (languageSwitcherClick loc (Some h)) = inr u.
Proof. eexists. reflexivity. Qed.

Lemma switcherListener_quiet (d : Dom.Document) (t : PageState) (r : Dom.NodeRef)
    (el : Dom.Element) :
  switchers_have_href d -> d !! r = Some el -> quiet_page d t ->
  quiet_page d (switcherListener t r el).1.
Proof.
  intros Hd Hel Ht. pose proof Ht as (_ & Hsw & _). unfold switcherListener.
  case_bool_decide as Hr; [|done]. rewrite Hsw, Dom.querySelectorAll_spec in Hr.
  destruct Hr as (e & He & Hc). rewrite Hel in He. injection He as <-.
  destruct (Hd r el Hel Hc) as [h ->]. destruct (switcher_click_total (location t) h) as [u Hu].
  apply (apply_handled_quiet d t _ u assign_href Hu); [|done].
  intros t' Ht'. by apply assign_href_quiet.
Qed.

Lemma scrollListener_quiet (d : Dom.Document) (t t1 : PageState) (r : Dom.NodeRef)
    (el : Dom.Element) :
  d !! r = Some el -> quiet_page d t -> quiet_page d t1 ->
  quiet_page d (scrollListener t t1 r el).1.
Proof.
  intros Hel Ht Ht1. pose proof Ht as (_ & _ & Hsl & _). unfold scrollListener.
  case_bool_decide as Hr; [|done]. rewrite Hsl in Hr.
  destruct (scrollLinks_href d r el Hr Hel) as [h ->].
  destruct (navLinkClick_total (document t) h) as [res Hres].
  apply (apply_handled_quiet d t1 _ res add_scroll Hres); [|done].
  intros t' Ht'. by apply add_scroll_quiet.
Qed.

Lemma click_quiet (d : Dom.Document) (t : PageState) (r : Dom.NodeRef) :
  switchers_have_href d -> quiet_page d t -> quiet_page d (click t r).
Proof.
  intros Hd Ht. pose proof Ht as (Hdoc & _). unfold click.
  destruct (document t !! r) as [el|] eqn:Hel; [|done]. rewrite Hdoc in Hel.
  pose proof (switcherListener_quiet d t r el Hd Hel Ht) as H1.
  destruct (switcherListener t r el) as [t1 p1]. simpl in H1.
  pose proof (scrollListener_quiet d t t1 r el Hel Ht H1) as H2.
  destruct (scrollListener t t1 r el) as [t2 p2]. simpl in H2.
  destruct (Dom.href el); [case_match; [by apply assign_href_quiet|] |]; exact H2.
Qed.

(** ** Theorems *)

(** C26. On a page whose language switchers all have an [href] (the
    markup contract), no listener ever throws: along any sequence of
    clicks on any nodes, submissions, settled fetches, frames and scroll
    events after [DOMContentLoaded], the browser reports no exception. *)
Theorem page_never_throws (loc : Location) (d : Dom.Document) (action : string)
    (controls : list (string * string)) (evs : list PageEvent) :
  switchers_have_href d ->
  uncaught (run (domContentLoaded loc d action controls) evs) = [].
Proof.
  intros Hd.
  enough (H : quiet_page d (run (domContentLoaded loc d action controls) evs)) by apply H.
  apply run_invariant; [|done].
  intros t e Ht. cbv [react page_reactive]. unfold dispatch.
  destruct (navigation t); [done|].
  destruct e as [r|fe|fe|y]; [by apply click_quiet | done | done | done].
Qed.

Lemma page_never_throws_witness :
  let d := [Dom.mkElement "a" "" ["language-switcher"] (Some "/he/") ∅ 0;
            Dom.mkElement "a" "" ["nav-link"] (Some "#missing") ∅ 0] in
  uncaught (run (domContentLoaded (mkLocation "/" "#x") d "/" []) [Click 1; Click 0]) = [].
Proof.
  intros d. apply page_never_throws.
  intros [|[|r]] e He Hc; simpl in He; try discriminate; injection He as <-; eauto.
Defined.

End Page.
